(** * LedgerSignerAdapter (src/main/signers/ledger/adapter.ts)

    A shallow embedding of the Ledger USB signer adapter: the registry of
    known signers ([knownSigners]), the ledger of pending disconnections
    ([disconnections]) with their [setTimeout] callbacks, the configuration
    observer, and the attach / detach / timeout / configuration handlers.

    Effects visible to the rest of the application (emitted notifications,
    calls on the external [Ledger] handle) are recorded in an output trace
    [out], in the order in which the source performs them. *)

From Stdlib Require Import String List ZArith Bool Lia.
Import ListNotations.

Module LedgerAdapter.

(** ** JavaScript helpers *)

(** [Array.prototype.findIndex]: the index of the first match, or -1. *)
Fixpoint findIndex {A} (p : A -> bool) (l : list A) : Z :=
  match l with
  | [] => (-1)%Z
  | x :: r => if p x then 0%Z else
      let i := findIndex p r in if (i <? 0)%Z then (-1)%Z else (i + 1)%Z
  end.

(** [Array.prototype.includes] on strings. *)
Definition includes (l : list string) (s : string) : bool :=
  existsb (String.eqb s) l.

Definition remove_nth {A} (k : nat) (l : list A) : list A :=
  firstn k l ++ skipn (S k) l.

(** [arr.splice(start, 1)]: a negative [start] counts from the end
    ([max(len + start, 0)]), a start past the end removes nothing. *)
Definition splice1 {A} (l : list A) (start : Z) : list A :=
  let n := Z.of_nat (length l) in
  let s := if (start <? 0)%Z then Z.max (n + start) 0 else Z.min start n in
  remove_nth (Z.to_nat s) l.

(** [arr.pop()]: removes and returns the last element. *)
Definition pop {A} (l : list A) : option (A * list A) :=
  match rev l with
  | [] => None
  | x :: r => Some (x, rev r)
  end.

(** [x || y] on numbers: [0] is falsy. *)
Definition js_or_num (x y : Z) : Z := if (x =? 0)%Z then y else x.

Definition update_nth {A} (k : nat) (f : A -> A) (l : list A) : list A :=
  firstn k l ++ match skipn k l with [] => [] | x :: r => f x :: r end.

(** ** Data model *)

Definition Derivation_live : string := "live"%string.

(** The global store, as read through [store('main.ledger.derivation')]
    and [store('main.ledger.liveAccountLimit')]. *)
Record Store := mkStore {
  st_derivation : string;
  st_liveAccountLimit : Z }.

(** An entry of [getLedgerDevices()] (node-hid [Device]); [path] is
    optional in its type. *)
Record HidDevice := mkHid { path : option string }.

(** The fields of a [Ledger] handle this adapter reads or writes.  [ref]
    is the identity of the JavaScript object ([indexOf] compares it);
    [devicePath], [id] and [model] are set by the constructor and never
    reassigned, [derivation] and [accountLimit] are written by
    [updateDerivation].  The handle lives in [knownSigners]; a timeout
    callback also captures it, but reads only its immutable fields. *)
Record Ledger := mkLedger {
  ref : nat;
  id : nat;
  devicePath : string;
  model : string;
  derivation : string;
  accountLimit : Z }.

Record Disconnection := mkDisconnection {
  dc_devicePath : string;
  dc_timeout : nat }.

Inductive Event :=
  | EvAdd (signer_id : nat)          (* this.emit('add', ledger) *)
  | EvRemove (signer_id : nat)       (* this.emit('remove', ledger.id) *)
  | EvOpen (r : nat)                 (* ledger.open() *)
  | EvConnect (r : nat)              (* ledger.connect() *)
  | EvDisconnect (r : nat)           (* ledger.disconnect() *)
  | EvClose (r : nat)                (* ledger.close() *)
  | EvDeriveAddresses (r : nat)      (* ledger.deriveAddresses() *)
  | EvLogError                       (* log.error(...) *)
  | EvObserverRemoved.               (* this.observer.remove() *)

Inductive Subscription := StoreObserver.

Record Adapter := mkAdapter {
  knownSigners : list Ledger;
  disconnections : list Disconnection;
  timers : list (nat * Ledger);     (* active setTimeout callbacks *)
  observer : option Subscription;
  next_ref : nat;
  next_id : nat;
  next_timer : nat;
  out : list Event }.

Definition init : Adapter := mkAdapter [] [] [] None 0 0 0 [].

Definition set_knownSigners (ks : list Ledger) (a : Adapter) : Adapter :=
  mkAdapter ks (disconnections a) (timers a) (observer a)
    (next_ref a) (next_id a) (next_timer a) (out a).

Definition set_disconnections (ds : list Disconnection) (a : Adapter) : Adapter :=
  mkAdapter (knownSigners a) ds (timers a) (observer a)
    (next_ref a) (next_id a) (next_timer a) (out a).

Definition set_timers (ts : list (nat * Ledger)) (a : Adapter) : Adapter :=
  mkAdapter (knownSigners a) (disconnections a) ts (observer a)
    (next_ref a) (next_id a) (next_timer a) (out a).

Definition set_observer (o : option Subscription) (a : Adapter) : Adapter :=
  mkAdapter (knownSigners a) (disconnections a) (timers a) o
    (next_ref a) (next_id a) (next_timer a) (out a).

Definition emit (e : Event) (a : Adapter) : Adapter :=
  mkAdapter (knownSigners a) (disconnections a) (timers a) (observer a)
    (next_ref a) (next_id a) (next_timer a) (out a ++ [e]).

(** [clearTimeout(t)]. *)
Definition clearTimeout (t : nat) (a : Adapter) : Adapter :=
  set_timers (filter (fun p => negb (Nat.eqb (fst p) t)) (timers a)) a.

(** ** External [Ledger] class (not under src/) *)

(** Modelled from the spec: the [Ledger] constructor (Ledger.ts, not under
    src/).  [id] is the stable logical identifier, assigned once and never
    reused in a process lifetime; it is drawn from a counter.  The
    derivation fields are overwritten by [updateDerivation] before use. *)
Definition new_Ledger (a : Adapter) (devicePath : string) (usb_id : string)
  : Ledger * Adapter :=
  let l := mkLedger (next_ref a) (next_id a) devicePath usb_id EmptyString 0 in
  (l, mkAdapter (knownSigners a) (disconnections a) (timers a) (observer a)
        (S (next_ref a)) (S (next_id a)) (next_timer a) (out a)).

(** Modelled from the spec: [Ledger.close()] (not under src/) releases the
    handle and fires its [close] signal, which the listener wired in
    [handleAttachedDevice] turns into [this.emit('remove', ledger.id)]. *)
Definition ledger_close (l : Ledger) (a : Adapter) : Adapter :=
  emit (EvRemove (id l)) (emit (EvClose (ref l)) a).

(** ** updateDerivation (lines 15-20) *)

Definition updateDerivation (st : Store) (ledger : Ledger)
  (derivation : string) (accountLimit : Z) : Ledger :=
  let liveAccountLimit := js_or_num accountLimit
    (if String.eqb derivation Derivation_live then st_liveAccountLimit st else 0%Z) in
  mkLedger (ref ledger) (id ledger) (devicePath ledger) (model ledger)
    derivation liveAccountLimit.

(** [updateDerivation(ledger)]: both parameters take their defaults. *)
Definition updateDerivation_default (st : Store) (ledger : Ledger) : Ledger :=
  updateDerivation st ledger (st_derivation st) 0.

(** ** open / close (lines 34-57) *)

(** The observer callback: every known signer whose derivation differs, or
    whose live account limit differs, is updated and re-derived. *)
Definition needs_update (ledgerDerivation : string) (liveAccountLimit : Z)
  (ledger : Ledger) : bool :=
  negb (String.eqb (derivation ledger) ledgerDerivation) ||
  (String.eqb (derivation ledger) "live"%string &&
   negb (accountLimit ledger =? liveAccountLimit)%Z).

Fixpoint observe_signers (st : Store) (ks : list Ledger) : list Ledger * list Event :=
  let ledgerDerivation := st_derivation st in
  let liveAccountLimit := st_liveAccountLimit st in
  match ks with
  | [] => ([], [])
  | ledger :: rest =>
      let '(ks', evs) := observe_signers st rest in
      if needs_update ledgerDerivation liveAccountLimit ledger then
        (updateDerivation st ledger ledgerDerivation liveAccountLimit :: ks',
         EvDeriveAddresses (ref ledger) :: evs)
      else (ledger :: ks', evs)
  end.

Definition observer_callback (st : Store) (a : Adapter) : Adapter :=
  let '(ks, evs) := observe_signers st (knownSigners a) in
  mkAdapter ks (disconnections a) (timers a) (observer a)
    (next_ref a) (next_id a) (next_timer a) (out a ++ evs).

(** [open()]: subscribes the observer ([super.open()] is external). *)
Definition adapter_open (a : Adapter) : Adapter :=
  set_observer (Some StoreObserver) a.

Inductive JsError := TypeError.

Inductive Result (A : Type) := Ok (v : A) | Throw (e : JsError).
Arguments Ok {A} v.
Arguments Throw {A} e.

(** [close()]: [this.observer.remove()] on an [undefined] observer throws a
    TypeError; [super.close()] is external. *)
Definition adapter_close (a : Adapter) : Result Adapter :=
  match observer a with
  | None => Throw TypeError
  | Some _ => Ok (emit EvObserverRemoved a)
  end.

(** ** getAttachedDevicePath / getDetachedSigner (lines 163-182) *)

Definition path_or_empty (d : HidDevice) : string :=
  match path d with Some p => p | None => EmptyString end.

Definition getAttachedDevicePath (devices : list HidDevice)
  (knownDevicePaths : list string) : string :=
  match find (fun d => negb (includes knownDevicePaths (path_or_empty d))) devices with
  | Some hid => path_or_empty hid
  | None => EmptyString
  end.

Definition path_is (d : HidDevice) (p : string) : bool :=
  match path d with Some q => String.eqb q p | None => false end.

Definition getDetachedSigner (attachedDevices : list HidDevice) (usb_id : string)
  (ks : list Ledger) : option Ledger :=
  find (fun signer => String.eqb (model signer) usb_id &&
          negb (existsb (fun device => path_is device (devicePath signer)) attachedDevices))
    ks.

(** ** handleAttachedDevice (lines 69-128) *)

(** Lines 79-94: resolve the device path, popping the most recent pending
    disconnection (and clearing its timeout) when no unknown path is seen. *)
Definition resolve_path (devices : list HidDevice) (a : Adapter)
  : option (string * Adapter) :=
  let knownPaths := map devicePath (knownSigners a) in
  let devicePath := getAttachedDevicePath devices knownPaths in
  if String.eqb devicePath EmptyString then
    match pop (disconnections a) with
    | None => None
    | Some (pendingDisconnection, rest) =>
        Some (dc_devicePath pendingDisconnection,
              clearTimeout (dc_timeout pendingDisconnection) (set_disconnections rest a))
    end
  else Some (devicePath, a).

(** Lines 96-122: reuse the handle registered at [devicePath], or create,
    announce and push a new one; returns the handle and its index. *)
Definition find_or_create (devicePath : string) (usb_id : string) (a : Adapter)
  : option (Ledger * nat * Adapter) :=
  let existingDeviceIndex :=
    findIndex (fun ledger => String.eqb (LedgerAdapter.devicePath ledger) devicePath)
      (knownSigners a) in
  if (0 <=? existingDeviceIndex)%Z then
    match nth_error (knownSigners a) (Z.to_nat existingDeviceIndex) with
    | Some ledger => Some (ledger, Z.to_nat existingDeviceIndex, a)
    | None => None
    end
  else
    let '(ledger, a) := new_Ledger a devicePath usb_id in
    let a := emit (EvAdd (id ledger)) a in
    Some (ledger, length (knownSigners a),
          set_knownSigners (knownSigners a ++ [ledger]) a).

Definition handleAttachedDevice (st : Store) (devices : list HidDevice)
  (usb_id : string) (a : Adapter) : Adapter :=
  match resolve_path devices a with
  | None => emit EvLogError a
  | Some (devicePath, a) =>
      match find_or_create devicePath usb_id a with
      | None => a
      | Some (ledger, i, a) =>
          let a := set_knownSigners
                     (update_nth i (updateDerivation_default st) (knownSigners a)) a in
          emit (EvConnect (ref ledger)) (emit (EvOpen (ref ledger)) a)
      end
  end.

(** ** handleDetachedDevice (lines 130-161) and its timeout (150-157) *)

Definition handleDetachedDevice (IS_WINDOWS : bool) (attachedDevices : list HidDevice)
  (usb_id : string) (a : Adapter) : Adapter :=
  match getDetachedSigner attachedDevices usb_id (knownSigners a) with
  | None => a
  | Some ledger =>
      let a := emit (EvDisconnect (ref ledger)) a in
      if negb IS_WINDOWS then
        let t := next_timer a in
        mkAdapter (knownSigners a)
          (disconnections a ++ [mkDisconnection (devicePath ledger) t])
          (timers a ++ [(t, ledger)]) (observer a)
          (next_ref a) (next_id a) (S t) (out a)
      else a
  end.

Definition indexOf (ledger : Ledger) (ks : list Ledger) : Z :=
  findIndex (fun s => Nat.eqb (ref s) (ref ledger)) ks.

(** The body of the [setTimeout] callback. *)
Definition timeout_body (ledger : Ledger) (a : Adapter) : Adapter :=
  let index := findIndex (fun d => String.eqb (dc_devicePath d) (devicePath ledger))
                 (disconnections a) in
  let a := set_disconnections (splice1 (disconnections a) index) a in
  let a := set_knownSigners (splice1 (knownSigners a) (indexOf ledger (knownSigners a))) a in
  ledger_close ledger a.

(** Timer [t] fires: only an active (not cleared, not yet run) timeout runs. *)
Definition fire_timeout (t : nat) (a : Adapter) : Adapter :=
  match find (fun p => Nat.eqb (fst p) t) (timers a) with
  | None => a
  | Some (_, ledger) => timeout_body ledger (clearTimeout t a)
  end.

(** ** Event loop *)

Inductive Input :=
  | Open
  | ConfigChange (st : Store)
  | Attach (st : Store) (devices : list HidDevice) (usb_id : string)
  | Detach (devices : list HidDevice) (usb_id : string)
  | Timeout (t : nat).

(** A configuration change reaches the adapter only through its observer. *)
Definition step (IS_WINDOWS : bool) (a : Adapter) (i : Input) : Adapter :=
  match i with
  | Open => adapter_open a
  | ConfigChange st =>
      match observer a with Some _ => observer_callback st a | None => a end
  | Attach st devices usb_id => handleAttachedDevice st devices usb_id a
  | Detach devices usb_id => handleDetachedDevice IS_WINDOWS devices usb_id a
  | Timeout t => fire_timeout t a
  end.

Definition run (IS_WINDOWS : bool) (inputs : list Input) (a : Adapter) : Adapter :=
  fold_left (step IS_WINDOWS) inputs a.

(** ** reload (lines 59-67) *)

(** [reload(signer)]: the registry handle at the signer's path is
    disconnected, then opened, then connected; the three calls form a
    promise chain and are recorded in the order the chain issues them. *)
Definition reload (signer : Ledger) (a : Adapter) : Adapter :=
  match find (fun s => String.eqb (devicePath s) (devicePath signer)) (knownSigners a) with
  | Some ledger =>
      emit (EvConnect (ref ledger))
        (emit (EvOpen (ref ledger)) (emit (EvDisconnect (ref ledger)) a))
  | None => a
  end.

End LedgerAdapter.

(** * General facts about the embedding *)

Module Facts.
Import LedgerAdapter.

Section FindIndex.
Context {A : Type} (p : A -> bool).

Lemma findIndex_range : forall l, (-1 <= findIndex p l)%Z.
Proof.
  induction l as [|x r IH]; simpl; [lia|].
  destruct (p x); [lia|]. destruct (findIndex p r <? 0)%Z eqn:E; lia.
Qed.

Lemma findIndex_neg : forall l, (findIndex p l < 0)%Z ->
  forall x, In x l -> p x = false.
Proof.
  induction l as [|y r IH]; simpl; intros Hneg x Hin; [contradiction|].
  destruct (p y) eqn:Py; [lia|].
  destruct (findIndex p r <? 0)%Z eqn:E.
  - apply Z.ltb_lt in E. destruct Hin as [<-|Hin]; auto.
  - apply Z.ltb_ge in E. lia.
Qed.

Lemma findIndex_none : forall l, (forall x, In x l -> p x = false) ->
  findIndex p l = (-1)%Z.
Proof.
  induction l as [|y r IH]; simpl; intros H; [reflexivity|].
  rewrite (H y (or_introl eq_refl)), IH by auto. reflexivity.
Qed.

Lemma findIndex_first : forall l i x,
  nth_error l i = Some x -> p x = true ->
  (forall j y, (j < i)%nat -> nth_error l j = Some y -> p y = false) ->
  findIndex p l = Z.of_nat i.
Proof.
  induction l as [|y r IH]; intros i x Hnth Hp Hbefore; [destruct i; discriminate|].
  destruct i as [|i]; simpl in *.
  - inversion Hnth; subst. now rewrite Hp.
  - rewrite (Hbefore 0%nat y) by (auto || lia).
    rewrite (IH i x Hnth Hp) by (intros j z Hj Hz; apply (Hbefore (S j)); auto; lia).
    destruct (Z.of_nat i <? 0)%Z eqn:E; [apply Z.ltb_lt in E; lia | lia].
Qed.

End FindIndex.

Lemma map_update_nth {A B} (g : A -> B) (f : A -> A) :
  (forall x, g (f x) = g x) ->
  forall i l, map g (update_nth i f l) = map g l.
Proof.
  intros Hf i l. unfold update_nth.
  transitivity (map g (firstn i l ++ skipn i l)); [|now rewrite firstn_skipn].
  rewrite !map_app. f_equal.
  destruct (skipn i l); simpl; [reflexivity|]. now rewrite Hf.
Qed.

Lemma remove_nth_split {A} : forall (k : nat) (l : list A),
  exists l1 l2, l = l1 ++ l2 /\ remove_nth k l = l1 ++ tl l2.
Proof.
  intros k l. exists (firstn k l), (skipn k l). split.
  - symmetry. apply firstn_skipn.
  - unfold remove_nth. f_equal.
    revert l; induction k as [|k IH]; intros [|x r]; try reflexivity.
    apply IH.
Qed.

Lemma NoDup_map_remove_nth {A B} (f : A -> B) : forall k l,
  NoDup (map f l) -> NoDup (map f (remove_nth k l)).
Proof.
  intros k l H. destruct (remove_nth_split k l) as (l1 & l2 & -> & ->).
  destruct l2 as [|x r]; simpl; auto.
  rewrite map_app in *. simpl in H. now apply NoDup_remove_1 in H.
Qed.

Lemma incl_map_remove_nth {A B} (f : A -> B) : forall k l,
  incl (map f (remove_nth k l)) (map f l).
Proof.
  intros k l. destruct (remove_nth_split k l) as (l1 & l2 & -> & ->).
  rewrite !map_app. apply incl_app_app; [apply incl_refl|].
  destruct l2; simpl; [apply incl_refl | apply incl_tl, incl_refl].
Qed.

Lemma pop_app_last {A} : forall (ds : list A) d, pop (ds ++ [d]) = Some (d, ds).
Proof. intros. unfold pop. rewrite rev_app_distr. simpl. now rewrite rev_involutive. Qed.

(** [updateDerivation] leaves the identity of the handle alone. *)
Lemma updateDerivation_devicePath st l d n :
  devicePath (updateDerivation st l d n) = devicePath l.
Proof. reflexivity. Qed.

Lemma updateDerivation_id st l d n : id (updateDerivation st l d n) = id l.
Proof. reflexivity. Qed.

Lemma observe_signers_maps {B} (g : Ledger -> B) st :
  (forall l d n, g (updateDerivation st l d n) = g l) ->
  forall ks, map g (fst (observe_signers st ks)) = map g ks.
Proof.
  intros Hg ks. induction ks as [|l r IH]; simpl; [reflexivity|].
  destruct (observe_signers st r) as [ks' evs] eqn:E. simpl in *.
  destruct (needs_update _ _ l); simpl; now rewrite ?Hg, IH.
Qed.

(** The ids announced with an [add] notification, in order. *)
Definition added_ids (evs : list Event) : list nat :=
  flat_map (fun e => match e with EvAdd n => [n] | _ => [] end) evs.

Lemma observe_signers_no_add st : forall ks, added_ids (snd (observe_signers st ks)) = [].
Proof.
  induction ks as [|l r IH]; simpl; [reflexivity|].
  destruct (observe_signers st r) as [ks' evs] eqn:E. simpl in *.
  destruct (needs_update _ _ l); simpl; auto.
Qed.

Lemma added_ids_app : forall e1 e2, added_ids (e1 ++ e2) = added_ids e1 ++ added_ids e2.
Proof. intros. unfold added_ids. apply flat_map_app. Qed.

Lemma resolve_path_frame devices a p a' :
  resolve_path devices a = Some (p, a') ->
  knownSigners a' = knownSigners a /\ out a' = out a /\ next_id a' = next_id a /\
  observer a' = observer a.
Proof.
  unfold resolve_path. destruct (String.eqb _ _).
  - destruct (pop (disconnections a)) as [[pd rest]|]; intros H; inversion H; subst.
    repeat split; reflexivity.
  - intros H; inversion H; subst. repeat split; reflexivity.
Qed.

(** The registry invariant (spec §3): paths and ids are unique in the
    registry, and every id ever announced is fresh. *)
Definition Inv (a : Adapter) : Prop :=
  NoDup (map devicePath (knownSigners a)) /\
  NoDup (map id (knownSigners a)) /\
  Forall (fun n => n < next_id a) (map id (knownSigners a)) /\
  NoDup (added_ids (out a)) /\
  Forall (fun n => n < next_id a) (added_ids (out a)).

Lemma Inv_init : Inv init.
Proof. repeat split; constructor. Qed.

Lemma Inv_emit e a :
  (forall n, e <> EvAdd n) -> Inv a -> Inv (emit e a).
Proof.
  intros He (H1 & H2 & H3 & H4 & H5). unfold Inv, emit; simpl.
  rewrite added_ids_app.
  assert (added_ids [e] = []) as ->
    by (destruct e; simpl; auto; exfalso; eapply He; reflexivity).
  rewrite app_nil_r. auto.
Qed.

Lemma Inv_update_nth st i a :
  Inv a -> Inv (set_knownSigners (update_nth i (updateDerivation_default st) (knownSigners a)) a).
Proof.
  unfold Inv, set_knownSigners; simpl.
  rewrite (map_update_nth devicePath (updateDerivation_default st) (fun _ => eq_refl)).
  rewrite (map_update_nth id (updateDerivation_default st) (fun _ => eq_refl)). auto.
Qed.

Lemma Inv_find_or_create p u a l i a' :
  Inv a -> find_or_create p u a = Some (l, i, a') -> Inv a'.
Proof.
  unfold find_or_create.
  destruct (0 <=? _)%Z eqn:E.
  - destruct (nth_error _ _); intros HI H; inversion H; subst; auto.
  - apply Z.leb_gt in E. intros (H1 & H2 & H3 & H4 & H5) H. inversion H; subst.
    pose proof (findIndex_neg _ _ E) as Hnot. clear H E.
    unfold Inv; simpl. rewrite !map_app, added_ids_app. simpl.
    repeat split.
    + apply NoDup_app; auto.
      * constructor; [intros []|constructor].
      * intros x Hx [<-|[]]. apply in_map_iff in Hx as (y & Hy & Hin).
        specialize (Hnot y Hin). simpl in Hnot. rewrite Hy, String.eqb_refl in Hnot.
        discriminate.
    + apply NoDup_app; auto.
      * constructor; [intros []|constructor].
      * intros x Hx [<-|[]]. rewrite Forall_forall in H3. specialize (H3 _ Hx). lia.
    + apply Forall_app; split; [|repeat constructor].
      eapply Forall_impl; [|exact H3]. simpl; intros; lia.
    + apply NoDup_app; auto.
      * constructor; [intros []|constructor].
      * intros x Hx [<-|[]]. rewrite Forall_forall in H5. specialize (H5 _ Hx). lia.
    + apply Forall_app; split; [|repeat constructor].
      eapply Forall_impl; [|exact H5]. simpl; intros; lia.
Qed.

Lemma Inv_frame a a' :
  knownSigners a' = knownSigners a -> out a' = out a -> next_id a' = next_id a ->
  Inv a -> Inv a'.
Proof. unfold Inv. intros -> -> ->. auto. Qed.

Lemma Inv_handleAttachedDevice st devices u a :
  Inv a -> Inv (handleAttachedDevice st devices u a).
Proof.
  intros HI. unfold handleAttachedDevice.
  destruct (resolve_path devices a) as [[p a1]|] eqn:R.
  - destruct (resolve_path_frame _ _ _ _ R) as (E1 & E2 & E3 & _).
    assert (HI1 : Inv a1) by (eapply Inv_frame; eauto).
    destruct (find_or_create p u a1) as [[[l i] a2]|] eqn:F; auto.
    apply Inv_emit; [discriminate|]. apply Inv_emit; [discriminate|].
    apply Inv_update_nth. eapply Inv_find_or_create; eauto.
  - apply Inv_emit; [discriminate|auto].
Qed.

Lemma Inv_observer_callback st a : Inv a -> Inv (observer_callback st a).
Proof.
  unfold observer_callback.
  pose proof (observe_signers_maps devicePath st (fun _ _ _ => eq_refl) (knownSigners a)) as M1.
  pose proof (observe_signers_maps id st (fun _ _ _ => eq_refl) (knownSigners a)) as M2.
  pose proof (observe_signers_no_add st (knownSigners a)) as M3.
  destruct (observe_signers st (knownSigners a)) as [ks evs]. simpl in *.
  unfold Inv; simpl. rewrite M1, M2, added_ids_app, M3, app_nil_r. auto.
Qed.

Lemma Inv_handleDetachedDevice w devices u a :
  Inv a -> Inv (handleDetachedDevice w devices u a).
Proof.
  intros HI. unfold handleDetachedDevice.
  destruct (getDetachedSigner _ _ _) as [l|]; auto.
  assert (HE : Inv (emit (EvDisconnect (ref l)) a)) by (apply Inv_emit; [discriminate|auto]).
  destruct w; simpl; auto.
Qed.

Lemma Inv_splice_signers a s :
  Inv a -> Inv (set_knownSigners (splice1 (knownSigners a) s) a).
Proof.
  unfold splice1. intros (H1 & H2 & H3 & H4 & H5).
  match goal with |- context [remove_nth ?k _] => generalize k; intros n end.
  unfold Inv, set_knownSigners; simpl. repeat split; auto.
  - now apply NoDup_map_remove_nth.
  - now apply NoDup_map_remove_nth.
  - rewrite Forall_forall in *. intros x Hx. apply H3. eapply incl_map_remove_nth; eauto.
Qed.

Lemma Inv_fire_timeout t a : Inv a -> Inv (fire_timeout t a).
Proof.
  intros HI. unfold fire_timeout.
  destruct (find _ (timers a)) as [[t' l]|]; auto.
  unfold timeout_body, ledger_close.
  apply Inv_emit; [discriminate|]. apply Inv_emit; [discriminate|].
  apply Inv_splice_signers. eapply Inv_frame; [| | |exact HI]; reflexivity.
Qed.

Lemma Inv_step w a i : Inv a -> Inv (step w a i).
Proof.
  intros HI. destruct i; simpl.
  - eapply Inv_frame; [| | |exact HI]; reflexivity.
  - destruct (observer a); auto using Inv_observer_callback.
  - now apply Inv_handleAttachedDevice.
  - now apply Inv_handleDetachedDevice.
  - now apply Inv_fire_timeout.
Qed.

Lemma Inv_run w : forall inputs a, Inv a -> Inv (run w inputs a).
Proof.
  induction inputs as [|i r IH]; simpl; intros a HI; auto.
  apply IH, Inv_step, HI.
Qed.

Lemma find_or_create_frame p u a l i a' :
  find_or_create p u a = Some (l, i, a') ->
  disconnections a' = disconnections a /\ timers a' = timers a /\ observer a' = observer a.
Proof.
  unfold find_or_create. destruct (0 <=? _)%Z.
  - destruct (nth_error _ _); intros H; inversion H; subst; auto.
  - intros H; inversion H; subst; auto.
Qed.

Lemma handleAttachedDevice_frame st devices u a p a1 :
  resolve_path devices a = Some (p, a1) ->
  disconnections (handleAttachedDevice st devices u a) = disconnections a1 /\
  timers (handleAttachedDevice st devices u a) = timers a1 /\
  observer (handleAttachedDevice st devices u a) = observer a1.
Proof.
  intros R. unfold handleAttachedDevice. rewrite R.
  destruct (find_or_create p u a1) as [[[l i] a2]|] eqn:F; auto.
  destruct (find_or_create_frame _ _ _ _ _ _ F) as (E1 & E2 & E3). simpl. auto.
Qed.

Lemma observer_step w a i : i <> Open -> observer (step w a i) = observer a.
Proof.
  intros Hi. destruct i as [|st|st devices u|devices u|t]; simpl.
  - congruence.
  - destruct (observer a) eqn:E; [|auto].
    unfold observer_callback. destruct (observe_signers _ _). simpl. auto.
  - destruct (resolve_path devices a) as [[p a1]|] eqn:R.
    + destruct (handleAttachedDevice_frame st _ u _ _ _ R) as (_ & _ & ->).
      now destruct (resolve_path_frame _ _ _ _ R) as (_ & _ & _ & ->).
    + unfold handleAttachedDevice. now rewrite R.
  - unfold handleDetachedDevice. destruct (getDetachedSigner _ _ _); auto.
    destruct w; reflexivity.
  - unfold fire_timeout. destruct (find _ _) as [[t' l]|]; reflexivity.
Qed.

Lemma splice1_minus_one {A} : forall l : list A, splice1 l (-1) = removelast l.
Proof.
  intros l. destruct l as [|x r] using rev_ind; [reflexivity|].
  unfold splice1. rewrite length_app. simpl.
  replace (Z.to_nat (Z.max (Z.of_nat (length r + 1) + -1) 0)) with (length r) by lia.
  unfold remove_nth. rewrite removelast_last.
  rewrite firstn_app, firstn_all, Nat.sub_diag, skipn_all2 by (rewrite length_app; simpl; lia).
  simpl. now rewrite !app_nil_r.
Qed.

(** The observer's output: one re-derivation per signer needing an update. *)
Lemma observe_signers_events st : forall ks,
  snd (observe_signers st ks) =
  map (fun l => EvDeriveAddresses (ref l))
    (filter (needs_update (st_derivation st) (st_liveAccountLimit st)) ks).
Proof.
  induction ks as [|l r IH]; simpl; [reflexivity|].
  destruct (observe_signers st r) as [ks' evs]. simpl in *.
  destruct (needs_update _ _ l); simpl; now rewrite IH.
Qed.

Lemma observe_signers_noop st : forall ks,
  (forall l, In l ks -> needs_update (st_derivation st) (st_liveAccountLimit st) l = false) ->
  observe_signers st ks = (ks, []).
Proof.
  induction ks as [|l r IH]; simpl; intros H; [reflexivity|].
  rewrite IH by auto. now rewrite H by auto.
Qed.

Lemma observe_signers_in st : forall ks l,
  In l (fst (observe_signers st ks)) ->
  (exists l0, In l0 ks /\
     needs_update (st_derivation st) (st_liveAccountLimit st) l0 = true /\
     l = updateDerivation st l0 (st_derivation st) (st_liveAccountLimit st)) \/
  (In l ks /\ needs_update (st_derivation st) (st_liveAccountLimit st) l = false).
Proof.
  induction ks as [|l0 r IH]; simpl; intros l Hin; [contradiction|].
  destruct (observe_signers st r) as [ks' evs] eqn:E. simpl in *.
  destruct (needs_update _ _ l0) eqn:N; simpl in Hin; destruct Hin as [<-|Hin].
  - left. exists l0. auto.
  - destruct (IH l Hin) as [(l1 & ? & ? & ?)|[? ?]]; [left; exists l1|right]; auto.
  - right; auto.
  - destruct (IH l Hin) as [(l1 & ? & ? & ?)|[? ?]]; [left; exists l1|right]; auto.
Qed.

End Facts.

(** * Claims *)

Module Claims.
Import LedgerAdapter Facts.

(** Concrete inputs: a store, two enumerated devices, one device model. *)
Definition st_standard : Store := mkStore "standard"%string 20.
Definition hidA : HidDevice := mkHid (Some "/dev/A"%string).
Definition hidB : HidDevice := mkHid (Some "/dev/B"%string).
Definition nanoS : string := "nanoS"%string.

(** A device attaches at /dev/A and then detaches (heuristic enabled). *)
Definition after_detach_A : Adapter :=
  run false [Attach st_standard [hidA] nanoS; Detach [] nanoS] init.

Definition ledger_A : Ledger :=
  mkLedger 0 0 "/dev/A"%string nanoS "standard"%string 0.

(** Two devices of the same model, at /dev/A and /dev/B, both unplugged. *)
Definition two_devices_detached : list Input :=
  [Attach st_standard [hidA] nanoS; Attach st_standard [hidA; hidB] nanoS;
   Detach [] nanoS; Detach [] nanoS].

(** ** C1 *)

(** C1 (counterexample): the device detached from /dev/A reattaches within
    the grace window under /dev/B, which enumeration reports.  The handler
    does not reuse handle 0: it creates handle 1 at /dev/B, emits [add] for
    it, and the pending entry for /dev/A is left untouched. *)
Lemma C1_new_path_gets_new_handle :
  let a := handleAttachedDevice st_standard [hidB] nanoS after_detach_A in
  ~ (exists l, In l (knownSigners a) /\ id l = 0 /\ devicePath l = "/dev/B"%string) /\
  In (EvAdd 1) (out a) /\
  disconnections a = [mkDisconnection "/dev/A"%string 0].
Proof.
  vm_compute. split; [|split; [tauto | reflexivity]].
  intros (l & Hin & Hid & Hp).
  destruct Hin as [<-|[<-|[]]]; discriminate.
Qed.

(** C1 (amended): when a detached device reattaches while its pending
    disconnection is still recorded (the most recent one) and the attach
    finds no usable unowned path ([getAttachedDevicePath] returns the empty
    string: no enumerated device outside the registry, or the first one has
    no path), [handleAttachedDevice] pops that entry, cancels its timeout
    and reuses the handle registered at its path: ids and device paths of
    the registry are unchanged, and the only effects are [open()] and
    [connect()] on that handle (no [add], no [remove]). *)
Theorem C1_reattach_reuses_pending_handle :
  forall st devices usb_id a ds d i ledger,
  NoDup (map devicePath (knownSigners a)) ->
  getAttachedDevicePath devices (map devicePath (knownSigners a)) = EmptyString ->
  disconnections a = ds ++ [d] ->
  nth_error (knownSigners a) i = Some ledger ->
  devicePath ledger = dc_devicePath d ->
  let a' := handleAttachedDevice st devices usb_id a in
  map id (knownSigners a') = map id (knownSigners a) /\
  map devicePath (knownSigners a') = map devicePath (knownSigners a) /\
  disconnections a' = ds /\
  timers a' = filter (fun p => negb (Nat.eqb (fst p) (dc_timeout d))) (timers a) /\
  out a' = out a ++ [EvOpen (ref ledger); EvConnect (ref ledger)].
Proof.
  intros st devices usb_id a ds d i ledger Hnd Hpath Hds Hnth Hdp a'.
  assert (Hidx : findIndex (fun l => String.eqb (devicePath l) (dc_devicePath d))
                   (knownSigners a) = Z.of_nat i).
  { apply (findIndex_first _ _ i ledger Hnth).
    - rewrite Hdp. apply String.eqb_refl.
    - intros j y Hj Hy. apply String.eqb_neq. intros Heq.
      assert (j = i); [|lia].
      apply (proj1 (NoDup_nth_error _) Hnd).
      + rewrite length_map. apply nth_error_Some. congruence.
      + rewrite !nth_error_map, Hy, Hnth. simpl. congruence. }
  unfold a', handleAttachedDevice, resolve_path.
  rewrite Hpath, Hds, pop_app_last. simpl.
  unfold find_or_create. simpl. rewrite Hidx.
  replace (0 <=? Z.of_nat i)%Z with true by (symmetry; apply Z.leb_le; lia).
  rewrite Nat2Z.id, Hnth. simpl.
  rewrite (map_update_nth id (updateDerivation_default st) (fun _ => eq_refl)).
  rewrite (map_update_nth devicePath (updateDerivation_default st) (fun _ => eq_refl)).
  rewrite <- app_assoc. repeat split; reflexivity.
Qed.

Lemma C1_reattach_reuses_pending_handle_witness :
  NoDup (map devicePath (knownSigners after_detach_A)) /\
  getAttachedDevicePath [hidA] (map devicePath (knownSigners after_detach_A)) = EmptyString /\
  disconnections after_detach_A = [] ++ [mkDisconnection "/dev/A"%string 0] /\
  nth_error (knownSigners after_detach_A) 0 = Some ledger_A /\
  devicePath ledger_A = dc_devicePath (mkDisconnection "/dev/A"%string 0) /\
  (let a' := handleAttachedDevice st_standard [hidA] nanoS after_detach_A in
   map id (knownSigners a') = map id (knownSigners after_detach_A) /\
   map devicePath (knownSigners a') = map devicePath (knownSigners after_detach_A) /\
   disconnections a' = [] /\
   timers a' = filter (fun p => negb (Nat.eqb (fst p) 0)) (timers after_detach_A) /\
   out a' = out after_detach_A ++ [EvOpen (ref ledger_A); EvConnect (ref ledger_A)]).
Proof.
  assert (Hnd : NoDup (map devicePath (knownSigners after_detach_A)))
    by (vm_compute; repeat constructor; intros []).
  split; [exact Hnd|]. split; [reflexivity|]. split; [reflexivity|].
  split; [reflexivity|]. split; [reflexivity|].
  apply (C1_reattach_reuses_pending_handle st_standard [hidA] nanoS after_detach_A
           [] (mkDisconnection "/dev/A"%string 0) 0 ledger_A);
    [exact Hnd | reflexivity | reflexivity | reflexivity | reflexivity].
Defined.

(** ** C2 *)

(** C2: for every sequence of attach, detach, timeout, open and
    configuration events from the initial adapter, the registry never holds
    two handles with the same device path, its ids are distinct, and no id
    is announced ([add]) twice in the process lifetime. *)
Theorem C2_registry_paths_unique_ids_fresh :
  forall IS_WINDOWS inputs,
  let a := run IS_WINDOWS inputs init in
  NoDup (map devicePath (knownSigners a)) /\
  NoDup (map id (knownSigners a)) /\
  NoDup (added_ids (out a)).
Proof.
  intros w inputs a.
  destruct (Inv_run w inputs init Inv_init) as (H1 & H2 & _ & H4 & _). auto.
Qed.

(** ** C3 *)

(** C3 (code): on Windows a detach only calls [disconnect()] on the
    resolved signer: the registry, the pending ledger and the timeouts are
    unchanged, and neither [close()] nor [remove] is issued. *)
Theorem C3_windows_detach_keeps_handle :
  forall devices usb_id a,
  let a' := handleDetachedDevice true devices usb_id a in
  knownSigners a' = knownSigners a /\
  disconnections a' = disconnections a /\
  timers a' = timers a /\
  (out a' = out a \/ exists r, out a' = out a ++ [EvDisconnect r]).
Proof.
  intros devices usb_id a a'. unfold a', handleDetachedDevice.
  destruct (getDetachedSigner _ _ _) as [l|]; simpl.
  - repeat split; auto. right. eexists. reflexivity.
  - repeat split; auto.
Qed.

(** ** C4 *)

(** C4 (code): a signer attached under the live scheme with limit 20; the
    store switches to the standard scheme (live limit still 20); the
    observer leaves the signer at scheme "standard" with accountLimit 20. *)
Theorem C4_observer_nonzero_limit_off_live :
  let a := run false [Open; Attach (mkStore "live"%string 20) [hidA] nanoS;
                      ConfigChange st_standard] init in
  map (fun l => (derivation l, accountLimit l)) (knownSigners a) =
    [("standard"%string, 20%Z)].
Proof. reflexivity. Qed.

(** ** C5 *)

(** The effective account limit in the spec's words (§4.3): the live
    limit under the live scheme, 0 otherwise. *)
Definition spec_effective_accountLimit (st : Store) : Z :=
  if String.eqb (st_derivation st) Derivation_live then st_liveAccountLimit st else 0.

(** C5: a configuration notification re-derives exactly the signers whose
    configuration differs (one [deriveAddresses()] each, none for a signer
    already at the effective configuration), and a second notification with
    the same effective configuration changes nothing and re-derives none. *)
Theorem C5_config_notification_idempotent :
  forall st1 st2 a,
  st_derivation st2 = st_derivation st1 ->
  spec_effective_accountLimit st2 = spec_effective_accountLimit st1 ->
  let a1 := observer_callback st1 a in
  out a1 = out a ++ map (fun l => EvDeriveAddresses (ref l))
                      (filter (needs_update (st_derivation st1) (st_liveAccountLimit st1))
                         (knownSigners a)) /\
  (forall l, In l (knownSigners a) ->
     derivation l = st_derivation st1 ->
     accountLimit l = spec_effective_accountLimit st1 ->
     needs_update (st_derivation st1) (st_liveAccountLimit st1) l = false) /\
  observer_callback st2 a1 = a1.
Proof.
  intros st1 st2 a HD HL a1.
  unfold spec_effective_accountLimit in *.
  assert (Hfix : forall l, In l (fst (observe_signers st1 (knownSigners a))) ->
            needs_update (st_derivation st2) (st_liveAccountLimit st2) l = false).
  { intros l Hin. rewrite HD.
    destruct (observe_signers_in _ _ _ Hin) as [(l0 & _ & _ & ->)|[_ N]].
    - unfold needs_update, updateDerivation, js_or_num. simpl.
      rewrite String.eqb_refl. simpl.
      destruct (String.eqb (st_derivation st1) "live") eqn:E; simpl; [|reflexivity].
      unfold Derivation_live in HL. rewrite HD, E in HL. rewrite <- HL.
      unfold Derivation_live. rewrite E.
      match goal with |- context [(?x =? 0)%Z] => destruct (x =? 0)%Z end;
      now rewrite Z.eqb_refl.
    - unfold needs_update in *.
      apply orb_false_iff in N as [N1 N2].
      rewrite N1. simpl. apply negb_false_iff, String.eqb_eq in N1.
      destruct (String.eqb (derivation l) "live") eqn:E; simpl in *; [|reflexivity].
      apply negb_false_iff, Z.eqb_eq in N2. rewrite N2.
      apply String.eqb_eq in E. unfold Derivation_live in HL.
      rewrite HD, <- N1, E, String.eqb_refl in HL. rewrite HL, Z.eqb_refl. reflexivity. }
  split; [|split].
  - unfold a1, observer_callback.
    pose proof (observe_signers_events st1 (knownSigners a)) as Ev.
    destruct (observe_signers st1 (knownSigners a)). simpl in *. now rewrite Ev.
  - intros l _ Hd Hl. unfold needs_update. rewrite Hd, String.eqb_refl. simpl.
    destruct (String.eqb (st_derivation st1) "live") eqn:E; [|reflexivity].
    unfold Derivation_live in Hl. rewrite E in Hl. rewrite Hl, Z.eqb_refl. reflexivity.
  - unfold a1, observer_callback at 2.
    destruct (observe_signers st1 (knownSigners a)) as [ks evs] eqn:E. simpl in Hfix.
    unfold observer_callback. simpl.
    rewrite (observe_signers_noop st2 ks Hfix). simpl. now rewrite E, app_nil_r.
Qed.

Definition live20 : Store := mkStore "live"%string 20.

Lemma C5_config_notification_idempotent_witness :
  let a := run false [Open; Attach st_standard [hidA] nanoS] init in
  st_derivation live20 = st_derivation live20 /\
  spec_effective_accountLimit live20 = spec_effective_accountLimit live20 /\
  (let a1 := observer_callback live20 a in
   out a1 = out a ++ map (fun l => EvDeriveAddresses (ref l))
                      (filter (needs_update (st_derivation live20) (st_liveAccountLimit live20))
                         (knownSigners a)) /\
   (forall l, In l (knownSigners a) ->
      derivation l = st_derivation live20 ->
      accountLimit l = spec_effective_accountLimit live20 ->
      needs_update (st_derivation live20) (st_liveAccountLimit live20) l = false) /\
   observer_callback live20 a1 = a1).
Proof.
  intros a. split; [reflexivity|]. split; [reflexivity|].
  exact (C5_config_notification_idempotent live20 live20 a eq_refl eq_refl).
Defined.

(** ** C6 *)

(** C6 (code): two devices of one model at /dev/A and /dev/B are unplugged
    together and never return.  Both detach events resolve to the handle at
    /dev/A; when the two timeouts fire, [close()] runs twice on it and
    [remove] is emitted twice for it, while the handle at /dev/B leaves the
    registry with no [close()] and no [remove]. *)
Theorem C6_two_detaches_close_twice :
  let a := run false (two_devices_detached ++ [Timeout 0; Timeout 1]) init in
  knownSigners a = [] /\
  out a = [EvAdd 0; EvOpen 0; EvConnect 0; EvAdd 1; EvOpen 1; EvConnect 1;
           EvDisconnect 0; EvDisconnect 0;
           EvClose 0; EvRemove 0; EvClose 0; EvRemove 0].
Proof. split; reflexivity. Qed.

(** ** C7 *)

(** C7 (code): the removal in the timeout callback, applied to a handle
    absent from the registry and a path absent from the pending ledger,
    drops the last registry entry and the last pending entry
    ([splice(-1, 1)]). *)
Theorem C7_remove_absent_drops_last :
  forall ledger a,
  (forall l, In l (knownSigners a) -> ref l <> ref ledger) ->
  (forall d, In d (disconnections a) -> dc_devicePath d <> devicePath ledger) ->
  knownSigners (timeout_body ledger a) = removelast (knownSigners a) /\
  disconnections (timeout_body ledger a) = removelast (disconnections a).
Proof.
  intros ledger a Hk Hd. unfold timeout_body, indexOf. simpl.
  rewrite (findIndex_none _ (disconnections a)).
  2:{ intros d Hin. apply String.eqb_neq. auto. }
  rewrite (findIndex_none _ (knownSigners a)).
  2:{ intros l Hin. apply Nat.eqb_neq. auto. }
  rewrite !splice1_minus_one. split; reflexivity.
Qed.

Definition ledger_Z : Ledger := mkLedger 7 7 "/dev/Z"%string nanoS "standard"%string 0.

Lemma C7_remove_absent_drops_last_witness :
  let a := run false [Attach st_standard [hidA] nanoS; Attach st_standard [hidA; hidB] nanoS;
                      Detach [hidA] nanoS] init in
  (forall l, In l (knownSigners a) -> ref l <> ref ledger_Z) /\
  (forall d, In d (disconnections a) -> dc_devicePath d <> devicePath ledger_Z) /\
  knownSigners (timeout_body ledger_Z a) = removelast (knownSigners a) /\
  disconnections (timeout_body ledger_Z a) = removelast (disconnections a).
Proof.
  intros a.
  assert (Hk : forall l, In l (knownSigners a) -> ref l <> ref ledger_Z)
    by (vm_compute; intros l [<-|[<-|[]]]; discriminate).
  assert (Hd : forall d, In d (disconnections a) -> dc_devicePath d <> devicePath ledger_Z)
    by (vm_compute; intros d [<-|[]]; discriminate).
  split; [exact Hk|]. split; [exact Hd|].
  exact (C7_remove_absent_drops_last ledger_Z a Hk Hd).
Defined.

(** ** C8 *)

(** C8 (code): if [open()] was never called, whatever events the adapter
    handled, [close()] throws a TypeError ([this.observer] is undefined). *)
Theorem C8_close_without_open_throws :
  forall IS_WINDOWS inputs,
  ~ In Open inputs ->
  adapter_close (run IS_WINDOWS inputs init) = Throw TypeError.
Proof.
  intros w inputs Hno. unfold adapter_close.
  enough (H : forall a, observer a = None -> observer (run w inputs a) = None)
    by (rewrite (H init eq_refl); reflexivity).
  induction inputs as [|i r IH]; simpl; intros a Ha; auto.
  apply IH; [intros Hin; apply Hno; right; exact Hin|].
  rewrite observer_step; auto. intros ->. apply Hno. left. reflexivity.
Qed.

Lemma C8_close_without_open_throws_witness :
  ~ In Open [Attach st_standard [hidA] nanoS; Detach [] nanoS] /\
  adapter_close (run false [Attach st_standard [hidA] nanoS; Detach [] nanoS] init)
    = Throw TypeError.
Proof.
  assert (H : ~ In Open [Attach st_standard [hidA] nanoS; Detach [] nanoS])
    by (intros [H|[H|[]]]; discriminate).
  split; [exact H|]. exact (C8_close_without_open_throws false _ H).
Defined.

(** ** C9 *)

(** C9 (code): two devices of one model at /dev/A and /dev/B are unplugged
    together; both detach events resolve to the handle at /dev/A, and the
    pending ledger holds two entries for /dev/A. *)
Theorem C9_two_pending_entries_same_path :
  disconnections (run false two_devices_detached init) =
    [mkDisconnection "/dev/A"%string 0; mkDisconnection "/dev/A"%string 1].
Proof. reflexivity. Qed.

(** ** C10 *)

(** C10 (counterexample): enumeration lists a device with no path first,
    then /dev/B, which no handle owns.  The path-less entry is selected,
    reads as the empty path, and the handler falls back to the pending
    ledger: it pops the entry for /dev/A and never uses /dev/B. *)
Lemma C10_pathless_entry_hides_new_path :
  let a := handleAttachedDevice st_standard [mkHid None; hidB] nanoS after_detach_A in
  disconnections after_detach_A = [mkDisconnection "/dev/A"%string 0] /\
  disconnections a = [] /\
  ~ In "/dev/B"%string (map devicePath (knownSigners a)).
Proof.
  vm_compute. split; [reflexivity|]. split; [reflexivity|].
  intros [H|[]]; discriminate.
Qed.

(** The first enumerated device whose path (a missing path read as the empty string) is
    not a registry path. *)
Definition first_unowned (devices : list HidDevice) (a : Adapter) : option HidDevice :=
  find (fun d => negb (includes (map devicePath (knownSigners a)) (path_or_empty d))) devices.

(** C10 (amended): if the first enumerated device outside the registry has
    a non-empty path, the event resolves to that path and the pending
    ledger and its timeouts are left alone; otherwise (no such device, or
    its path is missing or empty) the most recent pending entry is popped
    and its timeout cleared, and with no pending entry the event is only
    logged. *)
Theorem C10_attach_resolution_order :
  forall st devices usb_id a,
  (forall hid, first_unowned devices a = Some hid -> path_or_empty hid <> EmptyString ->
     resolve_path devices a = Some (path_or_empty hid, a) /\
     disconnections (handleAttachedDevice st devices usb_id a) = disconnections a /\
     timers (handleAttachedDevice st devices usb_id a) = timers a) /\
  ((first_unowned devices a = None \/
    exists hid, first_unowned devices a = Some hid /\ path_or_empty hid = EmptyString) ->
     (forall ds d, disconnections a = ds ++ [d] ->
        resolve_path devices a =
          Some (dc_devicePath d, clearTimeout (dc_timeout d) (set_disconnections ds a))) /\
     (disconnections a = [] ->
        handleAttachedDevice st devices usb_id a = emit EvLogError a)).
Proof.
  intros st devices usb_id a.
  assert (Hget : getAttachedDevicePath devices (map devicePath (knownSigners a)) =
                 match first_unowned devices a with
                 | Some hid => path_or_empty hid | None => EmptyString end)
    by reflexivity.
  split.
  - intros hid Hf Hne.
    assert (R : resolve_path devices a = Some (path_or_empty hid, a)).
    { unfold resolve_path. rewrite Hget, Hf.
      apply String.eqb_neq in Hne. now rewrite Hne. }
    split; [exact R|].
    destruct (handleAttachedDevice_frame st devices usb_id a _ _ R) as (E1 & E2 & _).
    auto.
  - intros Hnone.
    assert (Hempty : getAttachedDevicePath devices (map devicePath (knownSigners a)) = EmptyString).
    { rewrite Hget. destruct Hnone as [->|(hid & -> & Hp)]; auto. }
    split.
    + intros ds d Hds. unfold resolve_path. rewrite Hempty, Hds, pop_app_last.
      reflexivity.
    + intros Hds. unfold handleAttachedDevice, resolve_path.
      rewrite Hempty, Hds. reflexivity.
Qed.

End Claims.


(** * Further properties of the adapter *)

Module Extras.
Import LedgerAdapter Facts.

Lemma find_none_forall {A} (p : A -> bool) : forall l,
  (forall x, In x l -> p x = false) -> find p l = None.
Proof.
  induction l as [|x r IH]; simpl; intros H; [reflexivity|].
  rewrite H by auto. apply IH. auto.
Qed.

Lemma getAttachedDevicePath_unowned devices known :
  getAttachedDevicePath devices known <> EmptyString ->
  includes known (getAttachedDevicePath devices known) = false.
Proof.
  unfold getAttachedDevicePath.
  destruct (find _ devices) as [hid|] eqn:F; [|contradiction].
  intros _. apply find_some in F as [_ F]. now apply negb_true_iff in F.
Qed.

Lemma update_nth_last {A} (f : A -> A) : forall l x,
  update_nth (length l) f (l ++ [x]) = l ++ [f x].
Proof. induction l as [|y r IH]; intros x; simpl; [reflexivity|]. unfold update_nth in *. simpl. now rewrite IH. Qed.

Lemma nth_error_update_nth {A} (f : A -> A) : forall l i,
  nth_error (update_nth i f l) i = option_map f (nth_error l i).
Proof.
  unfold update_nth. induction l as [|x r IH]; intros [|i]; simpl; auto.
Qed.

Lemma findIndex_some {A} (p : A -> bool) : forall l,
  (0 <= findIndex p l)%Z ->
  exists x, nth_error l (Z.to_nat (findIndex p l)) = Some x /\ p x = true.
Proof.
  induction l as [|y r IH]; simpl; intros H; [lia|].
  destruct (p y) eqn:Py; [exists y; auto|].
  destruct (findIndex p r <? 0)%Z eqn:E; [lia|].
  apply Z.ltb_ge in E. destruct (IH E) as (x & Hx & Px). exists x. split; auto.
  replace (Z.to_nat (findIndex p r + 1)) with (S (Z.to_nat (findIndex p r))) by lia.
  exact Hx.
Qed.

(** The account limit [updateDerivation(ledger)] stores for a store. *)
Definition attach_accountLimit (st : Store) : Z :=
  if String.eqb (st_derivation st) Derivation_live then st_liveAccountLimit st else 0.

(** X1: when the first enumerated device whose path is not a registry path
    has a non-empty path [p] (the result of [getAttachedDevicePath]), the
    attach appends one new handle at [p] with a fresh id and the store's
    configuration (account limit 0 off the live scheme), announces it with
    [add], then opens and connects it; the pending ledger and its timeouts
    are untouched. *)
Theorem attach_new_device :
  forall st devices usb_id a p,
  getAttachedDevicePath devices (map devicePath (knownSigners a)) = p ->
  p <> EmptyString ->
  let a' := handleAttachedDevice st devices usb_id a in
  knownSigners a' = knownSigners a ++
    [mkLedger (next_ref a) (next_id a) p usb_id (st_derivation st) (attach_accountLimit st)] /\
  out a' = out a ++ [EvAdd (next_id a); EvOpen (next_ref a); EvConnect (next_ref a)] /\
  disconnections a' = disconnections a /\
  timers a' = timers a.
Proof.
  intros st devices usb_id a p Hp Hne a'.
  assert (Hun : includes (map devicePath (knownSigners a)) p = false)
    by (rewrite <- Hp; apply getAttachedDevicePath_unowned; congruence).
  assert (Hidx : findIndex (fun l => String.eqb (devicePath l) p) (knownSigners a) = (-1)%Z).
  { apply findIndex_none. intros x Hx. apply String.eqb_neq. intros Heq.
    assert (existsb (String.eqb p) (map devicePath (knownSigners a)) = true) as Hc.
    { apply existsb_exists. exists p. split; [|apply String.eqb_refl].
      rewrite <- Heq. now apply in_map. }
    unfold includes in Hun. congruence. }
  assert (E : String.eqb p EmptyString = false) by (apply String.eqb_neq; exact Hne).
  unfold a', handleAttachedDevice, resolve_path. rewrite Hp, E.
  unfold find_or_create. rewrite Hidx. simpl.
  rewrite update_nth_last. rewrite <- !app_assoc. repeat split; reflexivity.
Qed.

Lemma attach_new_device_witness :
  getAttachedDevicePath [Claims.hidA] (map devicePath (knownSigners init)) = "/dev/A"%string /\
  "/dev/A"%string <> EmptyString /\
  (let a' := handleAttachedDevice Claims.st_standard [Claims.hidA] Claims.nanoS init in
   knownSigners a' = knownSigners init ++
     [mkLedger (next_ref init) (next_id init) "/dev/A" Claims.nanoS
        (st_derivation Claims.st_standard) (attach_accountLimit Claims.st_standard)] /\
   out a' = out init ++ [EvAdd (next_id init); EvOpen (next_ref init); EvConnect (next_ref init)] /\
   disconnections a' = disconnections init /\
   timers a' = timers init).
Proof.
  assert (H1 : getAttachedDevicePath [Claims.hidA] (map devicePath (knownSigners init))
               = "/dev/A"%string) by reflexivity.
  assert (H2 : "/dev/A"%string <> EmptyString) by discriminate.
  split; [exact H1|]. split; [exact H2|].
  exact (attach_new_device Claims.st_standard [Claims.hidA] Claims.nanoS init _ H1 H2).
Defined.

(** X2: whenever an attach event resolves to a path (new or reused handle),
    the registry afterwards holds a handle at that path carrying the store's
    derivation and [attach_accountLimit] (0 off the live scheme). *)
Theorem attach_applies_store_config :
  forall st devices usb_id a p a1,
  resolve_path devices a = Some (p, a1) ->
  exists l, In l (knownSigners (handleAttachedDevice st devices usb_id a)) /\
    devicePath l = p /\ derivation l = st_derivation st /\
    accountLimit l = attach_accountLimit st.
Proof.
  intros st devices usb_id a p a1 R. unfold handleAttachedDevice. rewrite R.
  unfold find_or_create.
  destruct (0 <=? findIndex (fun l => String.eqb (devicePath l) p) (knownSigners a1))%Z eqn:E.
  - apply Z.leb_le in E. destruct (findIndex_some _ _ E) as (x & Hx & Px). rewrite Hx.
    simpl. exists (updateDerivation_default st x). split.
    + apply (nth_error_In _ (Z.to_nat (findIndex (fun l => String.eqb (devicePath l) p)
                                        (knownSigners a1)))).
      now rewrite nth_error_update_nth, Hx.
    + apply String.eqb_eq in Px. repeat split; auto.
  - simpl. rewrite update_nth_last. exists (updateDerivation_default st
      (mkLedger (next_ref a1) (next_id a1) p usb_id EmptyString 0)).
    split; [apply in_or_app; right; left; reflexivity|]. repeat split; reflexivity.
Qed.

Lemma attach_applies_store_config_witness :
  resolve_path [Claims.hidA] Claims.after_detach_A =
    Some ("/dev/A"%string, clearTimeout 0 (set_disconnections [] Claims.after_detach_A)) /\
  exists l, In l (knownSigners (handleAttachedDevice (mkStore "live" 20) [Claims.hidA]
                                  Claims.nanoS Claims.after_detach_A)) /\
    devicePath l = "/dev/A"%string /\ derivation l = "live"%string /\
    accountLimit l = attach_accountLimit (mkStore "live" 20).
Proof.
  assert (R : resolve_path [Claims.hidA] Claims.after_detach_A =
    Some ("/dev/A"%string, clearTimeout 0 (set_disconnections [] Claims.after_detach_A)))
    by reflexivity.
  split; [exact R|].
  exact (attach_applies_store_config (mkStore "live" 20) _ Claims.nanoS _ _ _ R).
Defined.

(** X3: a detach event is a no-op when every known signer of the device's
    model is still listed by the enumeration. *)
Theorem detach_all_present_noop :
  forall IS_WINDOWS devices usb_id a,
  (forall s, In s (knownSigners a) -> model s = usb_id ->
     exists d, In d devices /\ path d = Some (devicePath s)) ->
  handleDetachedDevice IS_WINDOWS devices usb_id a = a.
Proof.
  intros w devices usb_id a H. unfold handleDetachedDevice, getDetachedSigner.
  rewrite find_none_forall; [reflexivity|].
  intros s Hs. destruct (String.eqb (model s) usb_id) eqn:M; [|reflexivity].
  apply String.eqb_eq in M. destruct (H s Hs M) as (d & Hd & Hpd).
  simpl. apply negb_false_iff, existsb_exists. exists d. split; auto.
  unfold path_is. rewrite Hpd. apply String.eqb_refl.
Qed.

Lemma detach_all_present_noop_witness :
  (forall s, In s (knownSigners (run false [Attach Claims.st_standard [Claims.hidA] Claims.nanoS] init)) ->
     model s = Claims.nanoS -> exists d, In d [Claims.hidA] /\ path d = Some (devicePath s)) /\
  handleDetachedDevice false [Claims.hidA] Claims.nanoS
    (run false [Attach Claims.st_standard [Claims.hidA] Claims.nanoS] init)
  = run false [Attach Claims.st_standard [Claims.hidA] Claims.nanoS] init.
Proof.
  assert (H : forall s, In s (knownSigners (run false [Attach Claims.st_standard [Claims.hidA] Claims.nanoS] init)) ->
     model s = Claims.nanoS -> exists d, In d [Claims.hidA] /\ path d = Some (devicePath s)).
  { vm_compute. intros s [<-|[]] _. exists Claims.hidA. split; [left; reflexivity|reflexivity]. }
  split; [exact H|]. exact (detach_all_present_noop false _ _ _ H).
Defined.

Lemma find_filter_removed {A} (t : nat) : forall l : list (nat * A),
  find (fun p => Nat.eqb (fst p) t) (filter (fun p => negb (Nat.eqb (fst p) t)) l) = None.
Proof.
  induction l as [|[k v] r IH]; simpl; [reflexivity|].
  destruct (Nat.eqb k t) eqn:E; simpl; [exact IH|]. rewrite E. exact IH.
Qed.

(** X4: once an attach event has claimed a pending disconnection, that
    entry's timeout can no longer fire: running it leaves the adapter as it
    is (the handle is not removed or closed). *)
Theorem claimed_timeout_is_inert :
  forall st devices usb_id a ds d,
  getAttachedDevicePath devices (map devicePath (knownSigners a)) = EmptyString ->
  disconnections a = ds ++ [d] ->
  let a' := handleAttachedDevice st devices usb_id a in
  fire_timeout (dc_timeout d) a' = a'.
Proof.
  intros st devices usb_id a ds d Hp Hds a'.
  assert (R : resolve_path devices a =
    Some (dc_devicePath d, clearTimeout (dc_timeout d) (set_disconnections ds a))).
  { unfold resolve_path. rewrite Hp, Hds, pop_app_last. reflexivity. }
  destruct (handleAttachedDevice_frame st devices usb_id a _ _ R) as (_ & Ht & _).
  unfold fire_timeout. fold a' in Ht. rewrite Ht. simpl.
  now rewrite find_filter_removed.
Qed.

Lemma claimed_timeout_is_inert_witness :
  getAttachedDevicePath [Claims.hidA] (map devicePath (knownSigners Claims.after_detach_A))
    = EmptyString /\
  disconnections Claims.after_detach_A = [] ++ [mkDisconnection "/dev/A" 0] /\
  fire_timeout 0 (handleAttachedDevice Claims.st_standard [Claims.hidA] Claims.nanoS
                    Claims.after_detach_A)
  = handleAttachedDevice Claims.st_standard [Claims.hidA] Claims.nanoS Claims.after_detach_A.
Proof.
  assert (H1 : getAttachedDevicePath [Claims.hidA]
                 (map devicePath (knownSigners Claims.after_detach_A)) = EmptyString)
    by reflexivity.
  assert (H2 : disconnections Claims.after_detach_A = [] ++ [mkDisconnection "/dev/A" 0])
    by reflexivity.
  split; [exact H1|]. split; [exact H2|].
  exact (claimed_timeout_is_inert Claims.st_standard _ Claims.nanoS _ _ _ H1 H2).
Defined.

Lemma findIndex_nodup {A B} (f : A -> B) (eqb : B -> B -> bool)
  (Heqb : forall u v, eqb u v = true <-> u = v) :
  forall l i x, NoDup (map f l) -> nth_error l i = Some x ->
  findIndex (fun y => eqb (f y) (f x)) l = Z.of_nat i.
Proof.
  intros l i x Hnd Hx. apply (findIndex_first _ _ i x Hx); [now apply Heqb|].
  intros j y Hj Hy. destruct (eqb (f y) (f x)) eqn:E; [|reflexivity].
  apply Heqb in E. exfalso.
  assert (j = i); [|lia].
  apply (proj1 (NoDup_nth_error _) Hnd).
  - rewrite length_map. apply nth_error_Some. congruence.
  - rewrite !nth_error_map, Hy, Hx. simpl. congruence.
Qed.

Lemma splice1_index {A} : forall (l : list A) i,
  (i < length l)%nat -> splice1 l (Z.of_nat i) = remove_nth i l.
Proof.
  intros l i Hi. unfold splice1.
  replace (Z.of_nat i <? 0)%Z with false by (symmetry; apply Z.ltb_ge; lia).
  f_equal. lia.
Qed.

(** X5: when a pending timeout fires for a handle that is in the registry
    and whose path has a pending entry (paths of pending entries and handle
    identities being unique), exactly that handle and that entry are
    removed, and the handle is closed once, which emits [remove] once. *)
Theorem timeout_removes_its_handle :
  forall t t' ledger a i j l d,
  find (fun p => Nat.eqb (fst p) t) (timers a) = Some (t', ledger) ->
  NoDup (map ref (knownSigners a)) ->
  nth_error (knownSigners a) i = Some l -> ref l = ref ledger ->
  NoDup (map dc_devicePath (disconnections a)) ->
  nth_error (disconnections a) j = Some d -> dc_devicePath d = devicePath ledger ->
  let a' := fire_timeout t a in
  knownSigners a' = remove_nth i (knownSigners a) /\
  disconnections a' = remove_nth j (disconnections a) /\
  timers a' = filter (fun p => negb (Nat.eqb (fst p) t)) (timers a) /\
  out a' = out a ++ [EvClose (ref ledger); EvRemove (id ledger)].
Proof.
  intros t t' ledger a i j l d Hf Hk Hl Hr Hd Hdj Hdp a'.
  unfold a', fire_timeout. rewrite Hf. unfold timeout_body, indexOf. simpl.
  rewrite <- Hdp, (findIndex_nodup dc_devicePath String.eqb String.eqb_eq _ j d Hd Hdj).
  rewrite <- Hr, (findIndex_nodup ref Nat.eqb Nat.eqb_eq _ i l Hk Hl).
  rewrite !splice1_index by (apply nth_error_Some; congruence).
  rewrite <- app_assoc. repeat split; reflexivity.
Qed.

Lemma timeout_removes_its_handle_witness :
  let a := Claims.after_detach_A in
  find (fun p => Nat.eqb (fst p) 0) (timers a) = Some (0, Claims.ledger_A) /\
  NoDup (map ref (knownSigners a)) /\
  nth_error (knownSigners a) 0 = Some Claims.ledger_A /\ ref Claims.ledger_A = ref Claims.ledger_A /\
  NoDup (map dc_devicePath (disconnections a)) /\
  nth_error (disconnections a) 0 = Some (mkDisconnection "/dev/A" 0) /\
  dc_devicePath (mkDisconnection "/dev/A" 0) = devicePath Claims.ledger_A /\
  (let a' := fire_timeout 0 a in
   knownSigners a' = remove_nth 0 (knownSigners a) /\
   disconnections a' = remove_nth 0 (disconnections a) /\
   timers a' = filter (fun p => negb (Nat.eqb (fst p) 0)) (timers a) /\
   out a' = out a ++ [EvClose (ref Claims.ledger_A); EvRemove (id Claims.ledger_A)]).
Proof.
  intros a.
  assert (H1 : find (fun p => Nat.eqb (fst p) 0) (timers a) = Some (0, Claims.ledger_A))
    by reflexivity.
  assert (H2 : NoDup (map ref (knownSigners a))) by (vm_compute; repeat constructor; intros []).
  assert (H3 : nth_error (knownSigners a) 0 = Some Claims.ledger_A) by reflexivity.
  assert (H4 : NoDup (map dc_devicePath (disconnections a)))
    by (vm_compute; repeat constructor; intros []).
  assert (H5 : nth_error (disconnections a) 0 = Some (mkDisconnection "/dev/A" 0))
    by reflexivity.
  assert (H6 : dc_devicePath (mkDisconnection "/dev/A" 0) = devicePath Claims.ledger_A)
    by reflexivity.
  split; [exact H1|]. split; [exact H2|]. split; [exact H3|]. split; [reflexivity|].
  split; [exact H4|]. split; [exact H5|]. split; [exact H6|].
  exact (timeout_removes_its_handle 0 0 Claims.ledger_A a 0 0 _ _ H1 H2 H3 eq_refl H4 H5 H6).
Defined.

(** X6: a configuration change never adds, removes, reorders or
    re-identifies signers, never touches the pending ledger or its
    timeouts, and only calls [deriveAddresses()]. *)
Theorem config_change_keeps_registry :
  forall st a,
  let a' := observer_callback st a in
  map ref (knownSigners a') = map ref (knownSigners a) /\
  map id (knownSigners a') = map id (knownSigners a) /\
  map devicePath (knownSigners a') = map devicePath (knownSigners a) /\
  map model (knownSigners a') = map model (knownSigners a) /\
  disconnections a' = disconnections a /\ timers a' = timers a /\
  exists evs, out a' = out a ++ evs /\
    Forall (fun e => exists r, e = EvDeriveAddresses r) evs.
Proof.
  intros st a a'. unfold a', observer_callback.
  pose proof (observe_signers_maps ref st (fun _ _ _ => eq_refl) (knownSigners a)) as M1.
  pose proof (observe_signers_maps id st (fun _ _ _ => eq_refl) (knownSigners a)) as M2.
  pose proof (observe_signers_maps devicePath st (fun _ _ _ => eq_refl) (knownSigners a)) as M3.
  pose proof (observe_signers_maps model st (fun _ _ _ => eq_refl) (knownSigners a)) as M4.
  pose proof (observe_signers_events st (knownSigners a)) as Ev.
  destruct (observe_signers st (knownSigners a)) as [ks evs]. simpl in *.
  repeat split; auto. exists evs. split; [reflexivity|].
  rewrite Ev. apply Forall_forall. intros e He. apply in_map_iff in He as (l & <- & _).
  eexists; reflexivity.
Qed.

Lemma NoDup_map_inj {A B} (f : A -> B) : forall l x y,
  NoDup (map f l) -> In x l -> In y l -> f x = f y -> x = y.
Proof.
  induction l as [|z r IH]; simpl; intros x y Hnd Hx Hy Hf; [contradiction|].
  inversion Hnd as [|? ? Hnotin Hnd']; subst.
  destruct Hx as [<-|Hx], Hy as [<-|Hy]; auto.
  - exfalso. apply Hnotin. rewrite Hf. now apply in_map.
  - exfalso. apply Hnotin. rewrite <- Hf. now apply in_map.
Qed.

(** X7: [reload] acts on the registry handle at the signer's path, not on
    the object passed in: with no handle at that path it does nothing;
    otherwise that handle (unique, paths being unique) is disconnected,
    opened and connected, and the registry, pending ledger and timeouts are
    unchanged. *)
Theorem reload_targets_registry_handle :
  forall signer a,
  ((forall l, In l (knownSigners a) -> devicePath l <> devicePath signer) ->
     reload signer a = a) /\
  (forall l, NoDup (map devicePath (knownSigners a)) -> In l (knownSigners a) ->
     devicePath l = devicePath signer ->
     knownSigners (reload signer a) = knownSigners a /\
     disconnections (reload signer a) = disconnections a /\
     timers (reload signer a) = timers a /\
     out (reload signer a) = out a ++ [EvDisconnect (ref l); EvOpen (ref l); EvConnect (ref l)]).
Proof.
  intros signer a. split.
  - intros H. unfold reload. rewrite find_none_forall; [reflexivity|].
    intros x Hx. apply String.eqb_neq. auto.
  - intros l Hnd Hin Hp. unfold reload.
    destruct (find _ (knownSigners a)) as [x|] eqn:F.
    + apply find_some in F as [Fx Px]. apply String.eqb_eq in Px.
      assert (x = l) as -> by (apply (NoDup_map_inj devicePath _ _ _ Hnd Fx Hin); congruence).
      simpl. rewrite <- !app_assoc. repeat split; reflexivity.
    + exfalso. apply (find_none _ _ F) in Hin. rewrite Hp, String.eqb_refl in Hin.
      discriminate.
Qed.

Lemma find_or_create_effect p u a l i a' :
  find_or_create p u a = Some (l, i, a') ->
  (knownSigners a' = knownSigners a /\ out a' = out a) \/
  (knownSigners a' = knownSigners a ++ [l] /\ out a' = out a ++ [EvAdd (id l)]).
Proof.
  unfold find_or_create. destruct (0 <=? _)%Z.
  - destruct (nth_error _ _); intros H; inversion H; subst; auto.
  - intros H; inversion H; subst. right. split; reflexivity.
Qed.

(** Whether an output event releases a handle ([close()] or [remove]). *)
Definition releases (e : Event) : bool :=
  match e with EvClose _ | EvRemove _ => true | _ => false end.

Definition windows_state (a : Adapter) : Prop :=
  disconnections a = [] /\ timers a = [] /\
  Forall (fun e => releases e = false) (out a).

Lemma windows_state_step a i :
  windows_state a -> windows_state (step true a i).
Proof.
  unfold windows_state. intros (Hd & Ht & Ho).
  destruct i as [|st|st devices u|devices u|t]; simpl.
  - split; auto.
  - destruct (observer a); [|split; auto].
    unfold observer_callback.
    pose proof (observe_signers_events st (knownSigners a)) as Ev.
    destruct (observe_signers st (knownSigners a)) as [ks evs]. simpl in *.
    split; [congruence|]. split; [congruence|].
    apply Forall_app. split; auto. rewrite Ev. apply Forall_forall.
    intros e He. apply in_map_iff in He as (l & <- & _). reflexivity.
  - unfold handleAttachedDevice.
    destruct (resolve_path devices a) as [[p a1]|] eqn:R.
    + assert (Ha1 : windows_state a1).
      { unfold resolve_path in R. rewrite Hd in R. unfold pop in R. simpl in R.
        destruct (String.eqb _ _); inversion R; subst. split; auto. }
      destruct Ha1 as (Hd1 & Ht1 & Ho1).
      destruct (find_or_create p u a1) as [[[l i] a2]|] eqn:F; [|split; auto].
      destruct (find_or_create_frame _ _ _ _ _ _ F) as (F1 & F2 & _).
      simpl. split; [congruence|]. split; [congruence|].
      apply Forall_app. split; [|repeat constructor].
      apply Forall_app. split; [|repeat constructor].
      destruct (find_or_create_effect _ _ _ _ _ _ F) as [[_ ->]|[_ ->]]; auto.
      apply Forall_app. split; auto.
    + simpl. split; auto. split; auto. apply Forall_app. split; auto.
  - unfold handleDetachedDevice. destruct (getDetachedSigner _ _ _); simpl; [|split; auto].
    split; auto. split; auto. apply Forall_app. split; auto.
  - unfold fire_timeout. rewrite Ht. simpl. split; auto.
Qed.

Lemma windows_state_run : forall inputs a0,
  windows_state a0 -> windows_state (run true inputs a0).
Proof.
  induction inputs as [|i r IH]; simpl; auto. intros a0 H0. apply IH, windows_state_step, H0.
Qed.

(** X8: on Windows the adapter never records a pending disconnection or
    starts a removal timeout, and never closes or removes a signer, whatever
    events it handles. *)
Theorem windows_never_releases :
  forall inputs,
  let a := run true inputs init in
  disconnections a = [] /\ timers a = [] /\
  (forall e, In e (out a) -> releases e = false).
Proof.
  intros inputs a.
  destruct (windows_state_run inputs init) as (H1 & H2 & H3); [repeat split; constructor|].
  repeat split; auto. apply Forall_forall. exact H3.
Qed.

Lemma step_registry_grows w a i :
  (forall t, i <> Timeout t) ->
  exists suf, map ref (knownSigners (step w a i)) = map ref (knownSigners a) ++ suf.
Proof.
  intros Hi. destruct i as [|st|st devices u|devices u|t]; simpl.
  - exists []. now rewrite app_nil_r.
  - exists []. rewrite app_nil_r. destruct (observer a); [|reflexivity].
    unfold observer_callback.
    pose proof (observe_signers_maps ref st (fun _ _ _ => eq_refl) (knownSigners a)) as M.
    destruct (observe_signers st (knownSigners a)). exact M.
  - unfold handleAttachedDevice.
    destruct (resolve_path devices a) as [[p a1]|] eqn:R; [|exists []; now rewrite app_nil_r].
    destruct (resolve_path_frame _ _ _ _ R) as (E1 & _).
    destruct (find_or_create p u a1) as [[[l i] a2]|] eqn:F;
      [|exists []; rewrite app_nil_r; congruence].
    simpl. rewrite (map_update_nth ref (updateDerivation_default st) (fun _ => eq_refl)).
    destruct (find_or_create_effect _ _ _ _ _ _ F) as [[-> _]|[-> _]].
    + exists []. rewrite app_nil_r. congruence.
    + exists [ref l]. rewrite map_app. simpl. congruence.
  - exists []. rewrite app_nil_r. unfold handleDetachedDevice.
    destruct (getDetachedSigner _ _ _); [destruct w|]; reflexivity.
  - exfalso. exact (Hi t eq_refl).
Qed.

(** X9: attach, detach, open and configuration events never remove or
    reorder registry entries: the registry before the event is a prefix of
    the registry after it (only a timeout removes a signer). *)
Theorem non_timeout_events_keep_signers :
  forall IS_WINDOWS a i,
  (forall t, i <> Timeout t) ->
  exists suf, map ref (knownSigners (step IS_WINDOWS a i)) = map ref (knownSigners a) ++ suf.
Proof. intros w a i Hi. exact (step_registry_grows w a i Hi). Qed.

Lemma non_timeout_events_keep_signers_witness :
  (forall t, Detach [] Claims.nanoS <> Timeout t) /\
  exists suf, map ref (knownSigners (step false Claims.after_detach_A (Detach [] Claims.nanoS)))
              = map ref (knownSigners Claims.after_detach_A) ++ suf.
Proof.
  assert (H : forall t, Detach [] Claims.nanoS <> Timeout t) by discriminate.
  split; [exact H|]. exact (non_timeout_events_keep_signers false _ _ H).
Defined.

(** X10: on Windows a signer, once registered, stays registered for the
    rest of the process: the registry after any events is a prefix of the
    registry after any further events. *)
Theorem windows_registry_only_grows :
  forall inputs1 inputs2,
  exists suf,
    map ref (knownSigners (run true (inputs1 ++ inputs2) init)) =
    map ref (knownSigners (run true inputs1 init)) ++ suf.
Proof.
  intros inputs1 inputs2. unfold run. rewrite fold_left_app. fold (run true inputs1 init).
  assert (Hw : windows_state (run true inputs1 init)).
  { apply windows_state_run. repeat split; constructor. }
  generalize dependent (run true inputs1 init). clear inputs1.
  induction inputs2 as [|i r IH]; simpl; intros a Hw.
  - exists []. now rewrite app_nil_r.
  - destruct (IH (step true a i) (windows_state_step a i Hw)) as [suf2 E2].
    fold (run true r (step true a i)) in *.
    destruct i as [| | | |t].
    1-4: match type of E2 with context [step true _ ?j] =>
           destruct (step_registry_grows true a j ltac:(intros ? ?; discriminate)) as [suf1 E1]
         end;
         exists (suf1 ++ suf2); rewrite E2, E1, app_assoc; reflexivity.
    destruct Hw as (_ & Ht & _).
    assert (Hs : step true a (Timeout t) = a) by (simpl; unfold fire_timeout; now rewrite Ht).
    rewrite Hs in *. exists suf2. exact E2.
Qed.

End Extras.
